(** * Byfl database provisioning script ([tools/db/byfltables.py])

    The script holds a dictionary [TABLES] of [CREATE TABLE] statements,
    connects to a MySQL server, selects (creating it if absent) the database
    [DB_NAME] and executes every statement of the dictionary, printing one
    status line per table.

    The development has three parts: the static data ([DB_NAME], [TABLES]),
    a reader for the fragment of MySQL's DDL grammar the statements use, and
    the control flow of the script over an abstract MySQL server. *)

From stdpp Require Import base strings list gmap fin_maps pretty.
From Stdlib Require Import ZArith Ascii.
From Stdlib Require String.

Open Scope Z_scope.

(** ** Static data *)

(** Adjacent Python string literals are concatenated by the parser; a
    definition keeps one Rocq string per source line. *)
Definition lit (parts : list string) : string := foldr String.append EmptyString parts.

Definition DB_NAME : string := "byfl3".

(** [TABLES['runs']], lines 8-18. *)
Definition TABLES_runs : string := lit
  [ "CREATE TABLE `runs` (";
    "  `sec` bigint(20) UNSIGNED NOT NULL,";
    "  `usec` bigint(6) UNSIGNED NOT NULL,";
    "  `datetime` datetime NOT NULL,";
    "  `name` varchar(1028) NOT NULL,";
    "  `run_no` bigint(20) UNSIGNED NOT NULL,";
    "  `output_id` varchar(64) NOT NULL,";
    "  `bf_options` varchar(1028) NOT NULL,";
    "  PRIMARY KEY (`sec`, `usec`)";
    ") ENGINE=InnoDB" ].

(** [TABLES['loadstores']], lines 22-34. *)
Definition TABLES_loadstores : string := lit
  [ "CREATE TABLE `loadstores` (";
    "  `sec` bigint(20) UNSIGNED NOT NULL,";
    "  `usec` bigint(6) UNSIGNED NOT NULL,";
    "  `lsid` int(10) NOT NULL,";
    "  `tally` bigint(20) UNSIGNED NOT NULL,";
    "  `memop` bit(1) NOT NULL,";
    "  `memref` bit(1) NOT NULL,";
    "  `memagg` bit(1) NOT NULL,";
    "  `memsize` tinyint(1) NOT NULL,";
    "  `memtype` tinyint(1) NOT NULL,";
    "  PRIMARY KEY (`sec`, `usec`, `lsid`)";
    ") ENGINE=InnoDB" ].

(** [TABLES['basicblocks']], lines 37-52. *)
Definition TABLES_basicblocks : string := lit
  [ "CREATE TABLE `basicblocks` (";
    "  `sec` bigint(20) UNSIGNED NOT NULL,";
    "  `usec` bigint(6) UNSIGNED NOT NULL,";
    "  `bbid`  bigint(20) unsigned NOT NULL,";
    "  `num_merged` bigint(20) unsigned NOT NULL,";
    "  `LD_bytes` bigint(20) unsigned NOT NULL,";
    "  `ST_bytes` bigint(20) unsigned NOT NULL,";
    "  `LD_ops` bigint(20) unsigned NOT NULL,";
    "  `ST_ops` bigint(20) unsigned NOT NULL,";
    "  `Flops` bigint(20) unsigned NOT NULL,";
    "  `FP_bits` bigint(20) unsigned NOT NULL,";
    "  `Int_ops` bigint(20) unsigned NOT NULL,";
    "  `Int_op_bits` bigint(20) unsigned NOT NULL,";
    "  PRIMARY KEY (`sec`, `usec`, `bbid`)";
    ") ENGINE=InnoDB" ].

(** [TABLES['instmix']], lines 55-62. *)
Definition TABLES_instmix : string := lit
  [ "CREATE TABLE `instmix` (";
    "  `sec` bigint(20) UNSIGNED NOT NULL,";
    "  `usec` bigint(6) UNSIGNED NOT NULL,";
    "  `inst_type` varchar (25) NOT NULL,";
    "  `tally` bigint(20) UNSIGNED NOT NULL,";
    "  PRIMARY KEY (`sec`, `usec`, `inst_type`)";
    ") ENGINE=InnoDB" ].

(** [TABLES['vectorops']], lines 65-76. *)
Definition TABLES_vectorops : string := lit
  [ "CREATE TABLE `vectorops` (";
    "  `sec` bigint(20) UNSIGNED NOT NULL,";
    "  `usec` bigint(6) UNSIGNED NOT NULL,";
    "  `vectid` bigint(20) NOT NULL,";
    "  `Elements` int(11) NOT NULL,";
    "  `Elt_bits` int(11) NOT NULL,";
    "  `IsFlop` tinyint(11) NOT NULL,";
    "  `Tally` bigint(20) NOT NULL,";
    "  `Function` varchar(128) NOT NULL,";
    "  PRIMARY KEY (`sec`, `usec`, `vectid`)";
    ") ENGINE=InnoDB" ].

(** [TABLES['functions']], lines 79-108. *)
Definition TABLES_functions : string := lit
  [ "  CREATE TABLE `functions` (";
    "  `sec` bigint(20) UNSIGNED NOT NULL,";
    "  `usec` bigint(6) UNSIGNED NOT NULL,";
    "  `stackid` bigint(20) NOT NULL,";
    "  `LD_bytes` bigint(20) NOT NULL,";
    "  `ST_bytes` bigint(20) NOT NULL,";
    "  `LD_ops` bigint(20) NOT NULL,";
    "  `ST_ops` bigint(20) NOT NULL,";
    "  `Flops` bigint(20) NOT NULL,";
    "  `FP_bits` bigint(20) NOT NULL,";
    "  `Int_ops` bigint(20) NOT NULL,";
    "  `Int_op_bits` bigint(20) NOT NULL,";
    "  `Uniq_bytes` bigint(20) NOT NULL,";
    "  `Cond_brs` bigint(20) NOT NULL,";
    "  `Invocations` bigint(20) NOT NULL,";
    "  `Function` varchar(128) NOT NULL,";
    "  `Parent_func1` varchar(128) NOT NULL,";
    "  `Parent_func2` varchar(128) NOT NULL,";
    "  `Parent_func3` varchar(128) NOT NULL,";
    "  `Parent_func4` varchar(128) NOT NULL,";
    "  `Parent_func5` varchar(128) NOT NULL,";
    "  `Parent_func6` varchar(128) NOT NULL,";
    "  `Parent_func7` varchar(128) NOT NULL,";
    "  `Parent_func8` varchar(128) NOT NULL,";
    "  `Parent_func9` varchar(128) NOT NULL,";
    "  `Parent_func10` varchar(128) NOT NULL,";
    "  `Parent_func11` varchar(128) NOT NULL,";
    "  PRIMARY KEY (`sec`, `usec`, `stackid`)";
    ") ENGINE=InnoDB" ].

(** [TABLES['callee']], lines 111-119. *)
Definition TABLES_callee : string := lit
  [ "  CREATE TABLE `callee` (";
    "  `sec` bigint(20) UNSIGNED NOT NULL,";
    "  `usec` bigint(6) UNSIGNED NOT NULL,";
    "  `Invocations` bigint(20) NOT NULL,";
    "  `Byfl`tinyint(1) NOT NULL, ";
    "  `Function` varchar(128) NOT NULL,";
    "  PRIMARY KEY (`sec`,`usec`,`function`)";
    ") ENGINE=InnoDB" ].

(** [TABLES['derived']], lines 122-145. *)
Definition TABLES_derived : string := lit
  [ "  CREATE TABLE `derived` (";
    "  `sec` bigint(20) UNSIGNED NOT NULL,";
    "  `usec` bigint(6) UNSIGNED NOT NULL,";
    "  `bytes_loaded_per_byte_stored` DOUBLE(20,4) NOT NULL,";
    "  `ops_per_load_instr` DOUBLE(20,4) NOT NULL,";
    "  `bits_loaded_stored_per_memory_op` DOUBLE(20,4) NOT NULL,";
    "  `flops_per_conditional_indirect_branch` DOUBLE(20,4) NOT NULL,";
    "  `ops_per_conditional_indirect_branch` DOUBLE(20,4) NOT NULL,";
    "  `vector_ops_per_conditional_indirect_branch` DOUBLE(20,4) NOT NULL,";
    "  `vector_ops_per_flop` DOUBLE(20,4) NOT NULL,";
    "  `vector_ops_per_op` DOUBLE(20,4) NOT NULL,";
    "  `ops_per_instruction` DOUBLE(20,4) NOT NULL,";
    "  `bytes_per_flop` DOUBLE(20,4) NOT NULL,";
    "  `bits_per_flop_bit` DOUBLE(20,4) NOT NULL,";
    "  `bytes_per_op` DOUBLE(20,4) NOT NULL,";
    "  `bits_per_nonmemory_op_bit` DOUBLE(20,4) NOT NULL,";
    "  `unique_bytes_per_flop` DOUBLE(20,4) NOT NULL,";
    "  `unique_bits_per_flop_bit` DOUBLE(20,4) NOT NULL,";
    "  `unique_bytes_per_op` DOUBLE(20,4) NOT NULL,";
    "  `unique_bits_per_nonmemory_op_bit` DOUBLE(20,4) NOT NULL,";
    "  `bytes_per_unique_byte` DOUBLE(20,4) NOT NULL,";
    "  PRIMARY KEY (`sec`,`usec`)";
    ") ENGINE=InnoDB" ].

(** [TABLES = {}] followed by the eight item assignments, in source order. *)
Definition TABLES : gmap string string :=
  <["derived" := TABLES_derived]> (
  <["callee" := TABLES_callee]> (
  <["functions" := TABLES_functions]> (
  <["vectorops" := TABLES_vectorops]> (
  <["instmix" := TABLES_instmix]> (
  <["basicblocks" := TABLES_basicblocks]> (
  <["loadstores" := TABLES_loadstores]> (
  <["runs" := TABLES_runs]> (
  (∅ : gmap string string))))))))).

(** ** Reading the DDL statements

    The values of [TABLES] are MySQL [CREATE TABLE] statements.  The reader
    below covers the fragment of the grammar they use: a back-quoted table
    name, a parenthesised list of column definitions
    ([`name` type[(n[,m])] [UNSIGNED] [NOT NULL | NULL]]) and
    [PRIMARY KEY (`c`, ...)] clauses, followed by [ENGINE=name].  Keywords
    and type names are case-insensitive, as in MySQL. *)

Module DDL.

Inductive token :=
  | TWord (w : string)      (* keyword, type name or number *)
  | TQuoted (q : string)    (* `identifier` *)
  | TLParen | TRParen | TComma | TEq.

#[global] Instance token_eq_dec : EqDecision token.
Proof. solve_decision. Defined.

Definition code (c : ascii) : N := N_of_ascii c.

Definition is_space (c : ascii) : bool :=
  (code c =? 32)%N || (code c =? 9)%N || (code c =? 10)%N || (code c =? 13)%N.

Definition is_word_char (c : ascii) : bool :=
  ((48 <=? code c) && (code c <=? 57))%N      (* 0-9 *)
  || ((65 <=? code c) && (code c <=? 90))%N   (* A-Z *)
  || ((97 <=? code c) && (code c <=? 122))%N  (* a-z *)
  || (code c =? 95)%N.                        (* _ *)

Definition upper_char (c : ascii) : ascii :=
  if ((97 <=? code c) && (code c <=? 122))%N then ascii_of_N (code c - 32) else c.

Fixpoint upper (s : string) : string :=
  match s with
  | EmptyString => EmptyString
  | String c s' => String (upper_char c) (upper s')
  end.

Definition snoc (s : string) (c : ascii) : string := s +:+ String c EmptyString.

Inductive lex_mode := Idle | InWord (w : string) | InQuote (q : string).

Definition flush (m : lex_mode) : list token :=
  match m with InWord w => [TWord w] | _ => [] end.

Definition punct (c : ascii) : option token :=
  if (code c =? 40)%N then Some TLParen
  else if (code c =? 41)%N then Some TRParen
  else if (code c =? 44)%N then Some TComma
  else if (code c =? 61)%N then Some TEq
  else None.

Fixpoint lex (m : lex_mode) (s : string) : option (list token) :=
  match s with
  | EmptyString =>
      match m with InQuote _ => None | _ => Some (flush m) end
  | String c s' =>
      match m with
      | InQuote q =>
          if (code c =? 96)%N then (TQuoted q ::.) <$> lex Idle s'
          else lex (InQuote (snoc q c)) s'
      | _ =>
          if is_word_char c then
            lex (InWord (snoc (match m with InWord w => w | _ => EmptyString end) c)) s'
          else if is_space c then (flush m ++.) <$> lex Idle s'
          else if (code c =? 96)%N then (flush m ++.) <$> lex (InQuote EmptyString) s'
          else match punct c with
               | Some t => (λ ts, flush m ++ t :: ts) <$> lex Idle s'
               | None => None
               end
      end
  end.

Definition tokens (s : string) : option (list token) := lex Idle s.

(** *** Abstract syntax *)

Record sql_type := SqlType {
  ty_name : string;        (* upper-cased type name *)
  ty_args : list N;        (* display width, or precision and scale *)
  ty_unsigned : bool }.

Record column := Column {
  col_name : string;
  col_type : sql_type;
  col_not_null : bool }.

Inductive item :=
  | ICol (c : column)
  | IPrimaryKey (cols : list string).

Record table_def := TableDef {
  tbl_name : string;
  tbl_items : list item;
  tbl_engine : string }.

#[global] Instance sql_type_eq_dec : EqDecision sql_type.
Proof. solve_decision. Defined.
#[global] Instance column_eq_dec : EqDecision column.
Proof. solve_decision. Defined.
#[global] Instance item_eq_dec : EqDecision item.
Proof. solve_decision. Defined.
#[global] Instance table_def_eq_dec : EqDecision table_def.
Proof. solve_decision. Defined.

Definition is_kw (kw : string) (t : token) : bool :=
  match t with TWord w => String.eqb (upper w) kw | _ => false end.

Definition is_digit (c : ascii) : bool := ((48 <=? code c) && (code c <=? 57))%N.

Fixpoint number_from (acc : N) (s : string) : option N :=
  match s with
  | EmptyString => Some acc
  | String c s' =>
      if is_digit c then number_from (10 * acc + (code c - 48))%N s' else None
  end.

Definition number (s : string) : option N :=
  match s with EmptyString => None | _ => number_from 0%N s end.

(** Cuts the token list after the opening parenthesis of the table body at
    its top-level commas, up to the matching closing parenthesis; returns
    the segments and what follows the body. *)
Fixpoint split_body (depth : nat) (cur : list token) (segs : list (list token))
    (ts : list token) : option (list (list token) * list token) :=
  match ts with
  | [] => None
  | TLParen :: ts' => split_body (S depth) (cur ++ [TLParen]) segs ts'
  | TRParen :: ts' =>
      match depth with
      | O => Some (segs ++ [cur], ts')
      | S d => split_body d (cur ++ [TRParen]) segs ts'
      end
  | TComma :: ts' =>
      match depth with
      | O => split_body O [] (segs ++ [cur]) ts'
      | S _ => split_body depth (cur ++ [TComma]) segs ts'
      end
  | t :: ts' => split_body depth (cur ++ [t]) segs ts'
  end.

(** [n, m, ...)] after an opening parenthesis. *)
Fixpoint parse_numbers (ts : list token) : option (list N * list token) :=
  match ts with
  | TWord w :: TRParen :: rest => n ← number w; Some ([n], rest)
  | TWord w :: TComma :: rest =>
      n ← number w; '(ns, rest') ← parse_numbers rest; Some (n :: ns, rest')
  | _ => None
  end.

(** [`a`, `b`, ...)] after an opening parenthesis. *)
Fixpoint parse_names (ts : list token) : option (list string * list token) :=
  match ts with
  | TQuoted q :: TRParen :: rest => Some ([q], rest)
  | TQuoted q :: TComma :: rest =>
      '(qs, rest') ← parse_names rest; Some (q :: qs, rest')
  | _ => None
  end.

Definition parse_type_args (ts : list token) : option (list N * list token) :=
  match ts with
  | TLParen :: rest => parse_numbers rest
  | _ => Some ([], ts)
  end.

(** [[UNSIGNED] [NOT NULL | NULL]]: the unsigned flag and the NOT NULL flag. *)
Definition parse_attributes (ts : list token) : option (bool * bool) :=
  let '(u, ts) :=
    match ts with
    | t :: rest => if is_kw "UNSIGNED" t then (true, rest) else (false, ts)
    | [] => (false, ts)
    end in
  match ts with
  | [] => Some (u, false)
  | [t] => if is_kw "NULL" t then Some (u, false) else None
  | [t1; t2] => if is_kw "NOT" t1 && is_kw "NULL" t2 then Some (u, true) else None
  | _ => None
  end.

Definition parse_item (ts : list token) : option item :=
  match ts with
  | TQuoted name :: TWord ty :: rest =>
      '(args, rest) ← parse_type_args rest;
      '(u, nn) ← parse_attributes rest;
      Some (ICol (Column name (SqlType (upper ty) args u) nn))
  | TWord p :: TWord k :: TLParen :: rest =>
      if String.eqb (upper p) "PRIMARY" && String.eqb (upper k) "KEY" then
        '(names, rest) ← parse_names rest;
        match rest with [] => Some (IPrimaryKey names) | _ => None end
      else None
  | _ => None
  end.

Definition parse_tokens (ts : list token) : option table_def :=
  match ts with
  | c :: t :: TQuoted name :: TLParen :: rest =>
      if is_kw "CREATE" c && is_kw "TABLE" t then
        '(segs, trailer) ← split_body O [] [] rest;
        items ← mapM parse_item segs;
        match trailer with
        | [e; TEq; TWord engine] =>
            if is_kw "ENGINE" e then Some (TableDef name items engine) else None
        | _ => None
        end
      else None
  | _ => None
  end.

Definition parse (ddl : string) : option table_def :=
  tokens ddl ≫= parse_tokens.

Definition columns (t : table_def) : list column :=
  omap (λ i, match i with ICol c => Some c | _ => None end) (tbl_items t).

Definition primary_keys (t : table_def) : list (list string) :=
  omap (λ i, match i with IPrimaryKey k => Some k | _ => None end) (tbl_items t).

(** Column names are not case-sensitive in MySQL. *)
Definition same_name (a b : string) : bool := String.eqb (upper a) (upper b).

Definition find_column (t : table_def) (name : string) : option column :=
  List.find (λ c, same_name (col_name c) name) (columns t).

Definition key_columns (t : table_def) : list string := concat (primary_keys t).

Definition non_key_columns (t : table_def) : list column :=
  List.filter (λ c, negb (existsb (same_name (col_name c)) (key_columns t)))
    (columns t).

(** MySQL's families of data types, for the type names the statements use
    and their fixed-point counterparts. *)
Inductive type_family :=
  | Integer (bits : N)
  | FixedPoint
  | FloatingPoint
  | BitValue
  | CharacterString
  | DateAndTime
  | OtherType.

#[global] Instance type_family_eq_dec : EqDecision type_family.
Proof. solve_decision. Defined.

Definition one_of (names : list string) (name : string) : bool :=
  existsb (String.eqb name) names.

Definition type_family_of (ty : sql_type) : type_family :=
  let name := ty_name ty in
  if one_of ["TINYINT"] name then Integer 8
  else if one_of ["SMALLINT"] name then Integer 16
  else if one_of ["MEDIUMINT"] name then Integer 24
  else if one_of ["INT"; "INTEGER"] name then Integer 32
  else if one_of ["BIGINT"] name then Integer 64
  else if one_of ["DECIMAL"; "DEC"; "NUMERIC"; "FIXED"] name then FixedPoint
  else if one_of ["FLOAT"; "DOUBLE"; "REAL"] name then FloatingPoint
  else if one_of ["BIT"] name then BitValue
  else if one_of ["CHAR"; "VARCHAR"] name then CharacterString
  else if one_of ["DATE"; "TIME"; "DATETIME"; "TIMESTAMP"; "YEAR"] name then DateAndTime
  else OtherType.

(** *** Writing a definition back as tokens *)

Definition render_type (ty : sql_type) : list token :=
  TWord (ty_name ty) ::
  match ty_args ty with
  | [] => []
  | n :: ns =>
      TLParen :: TWord (pretty n)
        :: flat_map (λ m, [TComma; TWord (pretty m)]) ns ++ [TRParen]
  end ++
  (if ty_unsigned ty then [TWord "UNSIGNED"] else []).

Definition render_names (names : list string) : list token :=
  match names with
  | [] => []
  | q :: qs => TQuoted q :: flat_map (λ q', [TComma; TQuoted q']) qs
  end.

Definition render_item (i : item) : list token :=
  match i with
  | ICol c =>
      TQuoted (col_name c) :: render_type (col_type c) ++
      (if col_not_null c then [TWord "NOT"; TWord "NULL"] else [])
  | IPrimaryKey names =>
      [TWord "PRIMARY"; TWord "KEY"; TLParen] ++ render_names names ++ [TRParen]
  end.

Definition render (t : table_def) : list token :=
  [TWord "CREATE"; TWord "TABLE"; TQuoted (tbl_name t); TLParen] ++
  match tbl_items t with
  | [] => []
  | i :: rest => render_item i ++ flat_map (λ i', TComma :: render_item i') rest
  end ++
  [TRParen; TWord "ENGINE"; TEq; TWord (tbl_engine t)].

(** Keywords and type names compare without regard to case. *)
Definition fold_case (t : token) : token :=
  match t with TWord w => TWord (upper w) | _ => t end.

(** [s] ends with [suffix]. *)
Fixpoint ends_with (suffix s : string) : bool :=
  String.eqb s suffix ||
  match s with
  | EmptyString => false
  | String _ s' => ends_with suffix s'
  end.

End DDL.

(** ** The MySQL driver as seen by the script

    [mysql.connector] reports every failure as an exception of class
    [mysql.connector.Error] carrying the server's error number; [str(err)]
    is the message the script prints. *)

Record Error := MkError { errno : Z; str : string }.

(** The two constants of [mysql.connector.errorcode] the script compares
    with, with MySQL's server error numbers. *)
Module errorcode.
Definition ER_BAD_DB_ERROR : Z := 1049.
Definition ER_TABLE_EXISTS_ERROR : Z := 1050.
End errorcode.

(** The server behind the driver: each request answers with success
    ([None]) or an error, and moves the server to a new state. *)
Class MySQLServer (Srv : Type) := {
  srv_connect : string → string → Srv → option Error * Srv;  (* user, host *)
  srv_use : string → Srv → option Error * Srv;            (* cnx.database = name *)
  srv_execute : string → Srv → option Error * Srv;         (* cursor.execute(stmt) *)
}.

(** What the process does, in order. *)
Inductive event :=
  | EvConnect (user host : string) (r : option Error)
  | EvCursor
  | EvUse (db : string) (r : option Error)
  | EvExecute (stmt : string) (r : option Error)
  | EvPrint (text : string)
  | EvCursorClose
  | EvCnxClose.

(** The module-level names [cnx] and [cursor]. *)
Inductive handle := Unbound | Open | Closed.

#[global] Instance handle_eq_dec : EqDecision handle.
Proof. solve_decision. Defined.

Definition nl : string := String (ascii_of_N 10) EmptyString.

(** Text written to standard output. *)
Fixpoint stdout (tr : list event) : string :=
  match tr with
  | [] => EmptyString
  | EvPrint text :: tr' => text +:+ stdout tr'
  | _ :: tr' => stdout tr'
  end.

(** Statements passed to [cursor.execute], with the server's answers. *)
Fixpoint executed (tr : list event) : list (string * option Error) :=
  match tr with
  | [] => []
  | EvExecute stmt r :: tr' => (stmt, r) :: executed tr'
  | _ :: tr' => executed tr'
  end.

(** A statement ends normally, raises a [mysql.connector.Error], or raises
    [SystemExit] (the builtin [exit]); [except mysql.connector.Error]
    catches the second only. *)
Inductive outcome (A : Type) :=
  | Return (a : A)
  | Raise (e : Error)
  | SystemExit (code : Z).
Arguments Return {A} a.
Arguments Raise {A} e.
Arguments SystemExit {A} code.

Section Script.

Context {Srv : Type} `{!MySQLServer Srv}.

Record world := World {
  server : Srv;
  cnx : handle;
  cursor : handle;
  trace : list event }.

Definition log (e : event) (w : world) : world :=
  World (server w) (cnx w) (cursor w) (trace w ++ [e]).

(** *** A monad for statements that may raise *)

Definition M (A : Type) : Type := world → outcome A * world.

#[global] Instance M_ret : MRet M := λ A a w, (Return a, w).
#[global] Instance M_bind : MBind M := λ A B f m w,
  match m w with
  | (Return a, w') => f a w'
  | (Raise e, w') => (Raise e, w')
  | (SystemExit c, w') => (SystemExit c, w')
  end.

(** [try: body / except mysql.connector.Error as err: handler err] *)
Definition try_except {A} (body : M A) (handler : Error → M A) : M A := λ w,
  match body w with
  | (Raise e, w') => handler e w'
  | r => r
  end.

(** [try: body / except mysql.connector.Error as err: handler err / else: orelse] *)
Definition try_except_else {A B} (body : M A) (handler : Error → M B)
    (orelse : M B) : M B := λ w,
  match body w with
  | (Return _, w') => orelse w'
  | (Raise e, w') => handler e w'
  | (SystemExit c, w') => (SystemExit c, w')
  end.

Definition answer (r : option Error) : outcome unit :=
  match r with None => Return () | Some e => Raise e end.

(** [print(text, end=end_)] *)
Definition print (text end_ : string) : M unit := λ w,
  (Return (), log (EvPrint (text +:+ end_)) w).

(** [exit(code)] *)
Definition exit {A} (code : Z) : M A := λ w, (SystemExit code, w).

(** [cnx = mysql.connector.connect(user=..., host=...)] *)
Definition connect (user host : string) : M unit := λ w,
  let '(r, s) := srv_connect user host (server w) in
  (answer r,
   World s (if r is None then Open else cnx w) (cursor w)
         (trace w ++ [EvConnect user host r])).

(** [cursor = cnx.cursor()], on the connection just opened. *)
Definition new_cursor : M unit := λ w,
  (Return (), World (server w) (cnx w) Open (trace w ++ [EvCursor])).

(** [cnx.database = db] *)
Definition set_database (db : string) : M unit := λ w,
  let '(r, s) := srv_use db (server w) in
  (answer r, World s (cnx w) (cursor w) (trace w ++ [EvUse db r])).

(** [cursor.execute(stmt)] *)
Definition execute (stmt : string) : M unit := λ w,
  let '(r, s) := srv_execute stmt (server w) in
  (answer r, World s (cnx w) (cursor w) (trace w ++ [EvExecute stmt r])).

(** [cursor.close()] *)
Definition cursor_close : M unit := λ w,
  (Return (), World (server w) (cnx w) Closed (trace w ++ [EvCursorClose])).

(** [cnx.close()] *)
Definition cnx_close : M unit := λ w,
  (Return (), World (server w) Closed (cursor w) (trace w ++ [EvCnxClose])).

(** *** The script *)

Definition create_database_stmt : string :=
  "CREATE DATABASE " +:+ DB_NAME +:+ " DEFAULT CHARACTER SET 'utf8'".

(** Lines 161-167. *)
Definition create_database : M unit :=
  try_except
    (execute create_database_stmt)
    (λ err, print ("Failed creating database: " +:+ str err) nl;; exit 1).

(** Lines 168-176. *)
Definition select_database : M unit :=
  try_except
    (set_database DB_NAME)
    (λ err,
       if errno err =? errorcode.ER_BAD_DB_ERROR then
         create_database;; set_database DB_NAME
       else
         print (str err) nl;; exit 1).

(** Body of the loop, lines 179-188. *)
Definition create_table (entry : string * string) : M unit :=
  let '(name, ddl) := entry in
  try_except_else
    (print ("Creating table " +:+ name +:+ ": ") EmptyString;; execute ddl)
    (λ err,
       if errno err =? errorcode.ER_TABLE_EXISTS_ERROR then
         print "already exists." nl
       else
         print (str err) nl)
    (print "OK" nl).

Fixpoint for_each {A} (l : list A) (body : A → M unit) : M unit :=
  match l with
  | [] => mret ()
  | x :: l' => body x;; for_each l' body
  end.

(** [TABLES.iteritems()] yields every item of the dictionary once, in an
    order the language does not fix: the order is a parameter of the script,
    and the properties below assume of it only that it is a permutation of
    the dictionary's items. *)
Variable iteritems : gmap string string → list (string * string).

(** Lines 153-191. *)
Definition script : M unit :=
  connect "cahrens" "localhost";;
  new_cursor;;
  select_database;;
  for_each (iteritems TABLES) create_table;;
  cursor_close;;
  cnx_close.

Definition boot (s : Srv) : world := World s Unbound Unbound [].

(** The process: exit status and final world.  A script that runs off its
    end exits with 0, [SystemExit] with its code, and an exception nobody
    catches with 1 (after the interpreter's traceback). *)
Definition run (s : Srv) : Z * world :=
  match script (boot s) with
  | (Return _, w) => (0, w)
  | (Raise _, w) => (1, w)
  | (SystemExit code, w) => (code, w)
  end.

(** *** Observations used to state the script's behaviour *)

(** What a status line reports about one table. *)
Inductive table_outcome :=
  | Created
  | AlreadyPresent
  | Failed (message : string).

Definition classify (r : option Error) : table_outcome :=
  match r with
  | None => Created
  | Some e =>
      if errno e =? errorcode.ER_TABLE_EXISTS_ERROR then AlreadyPresent
      else Failed (str e)
  end.

Definition report (o : table_outcome) : string :=
  match o with
  | Created => "OK"
  | AlreadyPresent => "already exists."
  | Failed message => message
  end.

Definition status_line (name : string) (o : table_outcome) : string :=
  "Creating table " +:+ name +:+ ": " +:+ report o +:+ nl.

(** The server's answers to a sequence of statements, and its state after
    the last one. *)
Fixpoint responses (stmts : list string) (s : Srv) : list (option Error) * Srv :=
  match stmts with
  | [] => ([], s)
  | q :: qs =>
      let '(r, s1) := srv_execute q s in
      let '(rs, s2) := responses qs s1 in
      (r :: rs, s2)
  end.

(** Events of one turn of the loop, given the server's answer. *)
Definition table_events (entry : string * string) (r : option Error) : list event :=
  [ EvPrint ("Creating table " +:+ entry.1 +:+ ": ");
    EvExecute entry.2 r;
    EvPrint (report (classify r) +:+ nl) ].

Definition loop_events (entries : list (string * string))
    (rs : list (option Error)) : list event :=
  concat (zip_with table_events entries rs).

(** The database is selected, creating it first when the server does not
    know it: the server goes from [s1] to [s2]. *)
Definition database_ready (s1 s2 : Srv) : Prop :=
  srv_use DB_NAME s1 = (None, s2) ∨
  ∃ err sa sb,
    srv_use DB_NAME s1 = (Some err, sa) ∧
    errno err = errorcode.ER_BAD_DB_ERROR ∧
    srv_execute create_database_stmt sa = (None, sb) ∧
    srv_use DB_NAME sb = (None, s2).

(** No handle is left open. *)
Definition released (w : world) : Prop := cnx w ≠ Open ∧ cursor w ≠ Open.

End Script.

Arguments world Srv : clear implicits.
Arguments M Srv A : clear implicits.

(** ** Servers with a fixed list of answers

    A server that answers the requests it receives, whatever they are, with
    the next entry of a list, and with success once the list is used up. *)
Record scripted := Scripted { answers : list (option Error) }.

Definition next_answer (s : scripted) : option Error * scripted :=
  match answers s with
  | [] => (None, s)
  | r :: rs => (r, Scripted rs)
  end.

#[global] Instance scripted_server : MySQLServer scripted := {
  srv_connect _ _ := next_answer;
  srv_use _ := next_answer;
  srv_execute _ := next_answer }.

Definition access_denied : Error :=
  MkError 1044 "1044 (42000): Access denied for user 'cahrens'@'localhost' to database 'byfl3'".
Definition unknown_database : Error :=
  MkError 1049 "1049 (42000): Unknown database 'byfl3'".
Definition table_exists : Error :=
  MkError 1050 "1050 (42S01): Table already exists".
Definition syntax_error : Error :=
  MkError 1064 "1064 (42000): You have an error in your SQL syntax".

(** The server knows the database and creates every table. *)
Definition all_fine : scripted := Scripted [].
(** The user may not use the database. *)
Definition selection_denied : scripted := Scripted [None; Some access_denied].
(** The database is unknown and the user may not create it. *)
Definition creation_denied : scripted :=
  Scripted [None; Some unknown_database; Some access_denied].
(** The database is unknown and gets created; of the tables, the first one
    exists already and the second one is refused. *)
Definition fresh_database : scripted :=
  Scripted [None; Some unknown_database; None; None;
            Some table_exists; Some syntax_error].

(** ** The dictionary of table definitions *)

Definition TABLES_source : list (string * string) :=
  [ ("runs", TABLES_runs); ("loadstores", TABLES_loadstores);
    ("basicblocks", TABLES_basicblocks); ("instmix", TABLES_instmix);
    ("vectorops", TABLES_vectorops); ("functions", TABLES_functions);
    ("callee", TABLES_callee); ("derived", TABLES_derived) ].

(** The columns that may complete the key [(sec, usec)]. *)
Definition discriminators : list string :=
  ["lsid"; "bbid"; "inst_type"; "vectid"; "stackid"; "Function"].

Definition varchar (n : N) : DDL.sql_type := DDL.SqlType "VARCHAR" [n] false.
Definition double (m d : N) : DDL.sql_type := DDL.SqlType "DOUBLE" [m; d] false.

(** The [derived] table with ratio columns of a fixed-point type of 20
    digits, 4 of them after the point. *)
Definition derived_with_fixed_point_ratios : Prop :=
  ∃ t, DDL.parse TABLES_derived = Some t ∧
       length (DDL.non_key_columns t) = 18%nat ∧
       Forall (λ c, DDL.type_family_of (DDL.col_type c) = DDL.FixedPoint ∧
                    DDL.ty_args (DDL.col_type c) = [20; 4]%N)
              (DDL.non_key_columns t) ∧
       "bytes_loaded_per_byte_stored" ∈ DDL.col_name <$> DDL.non_key_columns t.

(** ** Further observations on runs *)

(** Answers to the selections of a database, in order. *)
Fixpoint selections (tr : list event) : list (option Error) :=
  match tr with
  | [] => []
  | EvUse _ r :: tr' => r :: selections tr'
  | _ :: tr' => selections tr'
  end.





(** A server whose answer to a statement depends on the statement alone;
    it accepts every connection and every selection. *)
Record stateless := Stateless { answer_of : string → option Error }.

#[global] Instance stateless_server : MySQLServer stateless := {
  srv_connect _ _ s := (None, s);
  srv_use _ s := (None, s);
  srv_execute stmt s := (answer_of s stmt, s) }.

(** The table [runs] exists already; every other statement is accepted. *)
Definition runs_exists : stateless :=
  Stateless (λ stmt, if String.eqb stmt TABLES_runs then Some table_exists else None).

(** Every table exists already. *)
Definition everything_exists : stateless := Stateless (λ _, Some table_exists).

Definition cannot_connect : Error :=
  MkError 2003 "2003: Can't connect to MySQL server on 'localhost:3306' (111 Connection refused)".

(** No server listens. *)
Definition connection_refused : scripted := Scripted [Some cannot_connect].
(** The database is unknown and gets created, and is then refused. *)
Definition refused_after_creation : scripted :=
  Scripted [None; Some unknown_database; None; Some access_denied].

(** The events up to the loop, after a selection that succeeded at once and
    after one that succeeded once the database was created. *)
Definition known_prefix : list event :=
  [ EvConnect "cahrens" "localhost" None; EvCursor; EvUse DB_NAME None ].
Definition created_prefix (err : Error) : list event :=
  [ EvConnect "cahrens" "localhost" None; EvCursor; EvUse DB_NAME (Some err);
    EvExecute create_database_stmt None; EvUse DB_NAME None ].

(** The dictionary's items in the reverse of [map_to_list]'s order. *)
Definition reversed_items (m : gmap string string) : list (string * string) :=
  reverse (map_to_list m).

(** * Properties *)

Lemma append_cons (x : ascii) (a b : string) :
  String x a +:+ b = String x (a +:+ b).
Proof. reflexivity. Qed.

Lemma append_assoc (a b c : string) : (a +:+ b) +:+ c = a +:+ (b +:+ c).
Proof.
  induction a as [|x a IH]; [done |]. by rewrite !append_cons, IH.
Qed.

Lemma append_empty_r (a : string) : a +:+ EmptyString = a.
Proof.
  induction a as [|x a IH]; [done |]. by rewrite append_cons, IH.
Qed.

(** An event that differs from every entry of an explicit list is not in it. *)
Ltac absent :=
  let Hin := fresh "Hin" in
  intros Hin;
  repeat (apply elem_of_cons in Hin as [Hin|Hin]; [discriminate Hin |]);
  by apply elem_of_nil in Hin.

(** Closed equations and closed decidable statements are settled by
    evaluation. *)
Ltac computed := vm_compute; reflexivity.
Ltac decided := apply (bool_decide_unpack _); vm_compute; exact I.

Lemma stdout_app (tr1 tr2 : list event) :
  stdout (tr1 ++ tr2) = stdout tr1 +:+ stdout tr2.
Proof.
  induction tr1 as [|e tr1 IH]; simpl; [done |].
  destruct e; simpl; try done. by rewrite IH, append_assoc.
Qed.

Section ScriptFacts.

Context {Srv : Type} `{!MySQLServer Srv}.

Implicit Types (s : Srv) (w : world Srv) (entries : list (string * string)).

Lemma create_table_spec entry w :
  create_table entry w =
    let '(r, s') := srv_execute entry.2 (server w) in
    (Return (), World s' (cnx w) (cursor w) (trace w ++ table_events entry r)).
Proof.
  destruct entry as [name ddl], w as [s c k tr].
  unfold create_table, try_except_else, mbind, M_bind, print, execute, log; simpl.
  destruct (srv_execute ddl s) as [[e|] s']; simpl.
  - unfold table_events, classify; simpl.
    destruct (errno e =? errorcode.ER_TABLE_EXISTS_ERROR); simpl;
      by rewrite <- !app_assoc, ?append_empty_r.
  - unfold table_events; simpl. by rewrite <- !app_assoc, ?append_empty_r.
Qed.

Lemma for_each_create_table_spec entries w :
  for_each entries create_table w =
    let '(rs, s') := responses entries.*2 (server w) in
    (Return (), World s' (cnx w) (cursor w) (trace w ++ loop_events entries rs)).
Proof.
  revert w. induction entries as [|entry entries IH]; intros w.
  - destruct w; simpl. unfold mret, M_ret, loop_events; simpl. by rewrite app_nil_r.
  - simpl. unfold mbind, M_bind. rewrite create_table_spec.
    destruct (srv_execute entry.2 (server w)) as [r s1].
    rewrite IH; simpl.
    destruct (responses _ s1) as [rs s2].
    unfold loop_events; simpl. by rewrite <- app_assoc.
Qed.

Lemma responses_length (stmts : list string) s :
  length (responses stmts s).1 = length stmts.
Proof.
  revert s. induction stmts as [|q qs IH]; intros s; simpl; [done |].
  destruct (srv_execute q s) as [r s1]. specialize (IH s1).
  destruct (responses qs s1) as [rs s2]. simpl in *. by rewrite IH.
Qed.

Lemma loop_events_stdout entries rs :
  length rs = length entries →
  stdout (loop_events entries rs) =
    lit (zip_with status_line entries.*1 (classify <$> rs)).
Proof.
  revert rs. unfold loop_events.
  induction entries as [|[name ddl] entries IH]; intros [|r rs] Hlen;
    simpl in *; try done.
  rewrite IH; [| lia]. unfold status_line. by rewrite !append_assoc.
Qed.

Lemma loop_events_executed entries rs :
  length rs = length entries →
  executed (loop_events entries rs) = zip entries.*2 rs.
Proof.
  revert rs. unfold loop_events.
  induction entries as [|[name ddl] entries IH]; intros [|r rs] Hlen;
    simpl in *; try done.
  rewrite IH; [done | lia].
Qed.

Lemma select_database_spec w :
  select_database w =
    let '(r1, s1) := srv_use DB_NAME (server w) in
    match r1 with
    | None =>
        (Return (), World s1 (cnx w) (cursor w) (trace w ++ [EvUse DB_NAME None]))
    | Some err =>
        if errno err =? errorcode.ER_BAD_DB_ERROR then
          let '(r2, s2) := srv_execute create_database_stmt s1 in
          match r2 with
          | None =>
              let '(r3, s3) := srv_use DB_NAME s2 in
              (answer r3,
               World s3 (cnx w) (cursor w)
                 (trace w ++ [EvUse DB_NAME r1;
                              EvExecute create_database_stmt None;
                              EvUse DB_NAME r3]))
          | Some e2 =>
              (SystemExit 1,
               World s2 (cnx w) (cursor w)
                 (trace w ++ [EvUse DB_NAME r1;
                              EvExecute create_database_stmt r2;
                              EvPrint ("Failed creating database: " +:+ str e2 +:+ nl)]))
          end
        else
          (SystemExit 1,
           World s1 (cnx w) (cursor w)
             (trace w ++ [EvUse DB_NAME r1; EvPrint (str err +:+ nl)]))
    end.
Proof.
  destruct w as [s c k tr].
  unfold select_database, create_database, try_except, set_database; simpl.
  destruct (srv_use DB_NAME s) as [[err|] s1]; simpl; [| done].
  destruct (errno err =? errorcode.ER_BAD_DB_ERROR); simpl.
  - unfold mbind, M_bind, try_except, execute, print, exit, log; simpl.
    destruct (srv_execute create_database_stmt s1) as [[e2|] s2]; simpl.
    + by rewrite <- !app_assoc, append_assoc.
    + destruct (srv_use DB_NAME s2) as [r3 s3]; simpl. by rewrite <- !app_assoc.
  - unfold mbind, M_bind, print, exit, log; simpl. by rewrite <- !app_assoc.
Qed.

Lemma classify_cases (r : option Error) :
  match classify r with
  | Created => r = None
  | AlreadyPresent =>
      ∃ e, r = Some e ∧ errno e = errorcode.ER_TABLE_EXISTS_ERROR
  | Failed message =>
      ∃ e, r = Some e ∧ errno e ≠ errorcode.ER_TABLE_EXISTS_ERROR ∧ message = str e
  end.
Proof.
  destruct r as [e|]; simpl; [| done].
  destruct (Z.eqb_spec (errno e) errorcode.ER_TABLE_EXISTS_ERROR); eauto.
Qed.

(** C4. Whatever the entries and whatever the server answers, the loop runs
    to its end without raising: every DDL statement is executed, once and in
    turn, and each table gets one status line, which reports [OK] after a
    success, [already exists.] after an error numbered
    [ER_TABLE_EXISTS_ERROR], and the error's message after any other error. *)
Theorem table_loop_reports_and_continues entries w :
  ∃ rs s' evs,
    responses entries.*2 (server w) = (rs, s') ∧
    for_each entries create_table w =
      (Return (), World s' (cnx w) (cursor w) (trace w ++ evs)) ∧
    length rs = length entries ∧
    executed evs = zip entries.*2 rs ∧
    stdout evs = lit (zip_with status_line entries.*1 (classify <$> rs)) ∧
    Forall (λ r,
      match classify r with
      | Created => r = None
      | AlreadyPresent =>
          ∃ e, r = Some e ∧ errno e = errorcode.ER_TABLE_EXISTS_ERROR
      | Failed message =>
          ∃ e, r = Some e ∧ errno e ≠ errorcode.ER_TABLE_EXISTS_ERROR
               ∧ message = str e
      end) rs.
Proof.
  pose proof (for_each_create_table_spec entries w) as Hrun.
  pose proof (responses_length entries.*2 (server w)) as Hlen.
  destruct (responses entries.*2 (server w)) as [rs s']; simpl in Hlen.
  rewrite length_fmap in Hlen.
  exists rs, s', (loop_events entries rs). repeat split; try done.
  - by apply loop_events_executed.
  - by apply loop_events_stdout.
  - apply Forall_forall. intros r _. apply classify_cases.
Qed.

Section Run.

Variable iteritems : gmap string string → list (string * string).
Hypothesis iteritems_perm : ∀ m, iteritems m ≡ₚ map_to_list m.

Lemma run_unfold s :
  run iteritems s =
    let '(r0, s0) := srv_connect "cahrens" "localhost" s in
    match r0 with
    | Some _ =>
        (1, World s0 Unbound Unbound [EvConnect "cahrens" "localhost" r0])
    | None =>
        match select_database
                (World s0 Open Open [EvConnect "cahrens" "localhost" None; EvCursor])
        with
        | (Return _, w1) =>
            let '(rs, s') := responses (iteritems TABLES).*2 (server w1) in
            (0, World s' Closed Closed
                  (trace w1 ++ loop_events (iteritems TABLES) rs
                            ++ [EvCursorClose; EvCnxClose]))
        | (Raise _, w1) => (1, w1)
        | (SystemExit code, w1) => (code, w1)
        end
    end.
Proof.
  unfold run, script. generalize (iteritems TABLES) as entries; intros entries.
  unfold mbind at 1. unfold M_bind at 1.
  unfold connect, boot; simpl.
  destruct (srv_connect "cahrens" "localhost" s) as [[e|] s0]; simpl; [done |].
  unfold mbind at 1. unfold M_bind at 1. unfold new_cursor; simpl.
  unfold mbind at 1. unfold M_bind at 1.
  destruct (select_database _) as [[[]|e|code] w1]; [| done | done].
  unfold mbind at 1. unfold M_bind at 1.
  rewrite for_each_create_table_spec.
  destruct (responses entries.*2 (server w1)) as [rs s'].
  unfold mbind, M_bind, cursor_close, cnx_close; simpl.
  by rewrite <- !app_assoc.
Qed.

Lemma iteritems_keys :
  (iteritems TABLES).*1 ≡ₚ
    ["runs"; "loadstores"; "basicblocks"; "instmix"; "vectorops"; "functions";
     "callee"; "derived"].
Proof.
  rewrite (iteritems_perm TABLES).
  apply (bool_decide_unpack _). by vm_compute.
Qed.

Lemma iteritems_length : length (iteritems TABLES) = size TABLES.
Proof. by rewrite (iteritems_perm TABLES), length_map_to_list. Qed.

(** C7. When the connection and the selection of the database (after
    creating it, if the server did not know it) succeed, the process prints
    one status line for each of the eight tables and exits with status 0,
    whatever the server answered to the [CREATE TABLE] statements. *)
Theorem table_failures_do_not_change_exit_status s s1 s2 :
  srv_connect "cahrens" "localhost" s = (None, s1) →
  database_ready s1 s2 →
  ∃ rs w,
    run iteritems s = (0, w) ∧
    responses (iteritems TABLES).*2 s2 = (rs, server w) ∧
    length rs = 8%nat ∧
    stdout (trace w) =
      lit (zip_with status_line (iteritems TABLES).*1 (classify <$> rs)) ∧
    (iteritems TABLES).*1 ≡ₚ
      ["runs"; "loadstores"; "basicblocks"; "instmix"; "vectorops";
       "functions"; "callee"; "derived"].
Proof.
  intros Hconnect Hready.
  pose proof (responses_length (iteritems TABLES).*2 s2) as Hlen.
  rewrite length_fmap, iteritems_length in Hlen.
  pose proof (run_unfold s) as Hrun. rewrite Hconnect in Hrun.
  rewrite select_database_spec in Hrun; simpl in Hrun.
  destruct (responses (iteritems TABLES).*2 s2) as [rs s'] eqn:Hrs.
  simpl in Hlen.
  destruct Hready as [Huse | (err & sa & sb & Huse & Herr & Hcreate & Huse')].
  - rewrite Huse in Hrun; simpl in Hrun. rewrite Hrs in Hrun.
    eexists rs, _. split; [exact Hrun |]. simpl.
    repeat split; [done | | apply iteritems_keys].
    rewrite !stdout_app, loop_events_stdout by (by rewrite iteritems_length).
    simpl. by rewrite append_empty_r.
  - rewrite Huse in Hrun. apply Z.eqb_eq in Herr. rewrite Herr, Hcreate, Huse' in Hrun.
    simpl in Hrun. rewrite Hrs in Hrun.
    eexists rs, _. split; [exact Hrun |]. simpl.
    repeat split; [done | | apply iteritems_keys].
    rewrite !stdout_app, loop_events_stdout by (by rewrite iteritems_length).
    simpl. by rewrite append_empty_r.
Qed.

(** C3. After a failed selection of the database: if the error is
    [ER_BAD_DB_ERROR], the statement
    [CREATE DATABASE byfl3 DEFAULT CHARACTER SET 'utf8'] is executed; when it
    succeeds the selection is tried again, and when it fails the process
    prints the error and ends at once with status 1.  After any other error
    of the selection the process prints it and ends at once with status 1. *)
Theorem database_selection_failure s s1 s2 (err : Error) :
  srv_connect "cahrens" "localhost" s = (None, s1) →
  srv_use DB_NAME s1 = (Some err, s2) →
  create_database_stmt = "CREATE DATABASE byfl3 DEFAULT CHARACTER SET 'utf8'" ∧
  (errno err = errorcode.ER_BAD_DB_ERROR →
     (∀ s3, srv_execute create_database_stmt s2 = (None, s3) →
        ∃ rest,
          trace (run iteritems s).2 =
            [ EvConnect "cahrens" "localhost" None; EvCursor;
              EvUse DB_NAME (Some err);
              EvExecute create_database_stmt None;
              EvUse DB_NAME (srv_use DB_NAME s3).1 ] ++ rest) ∧
     (∀ e2 s3, srv_execute create_database_stmt s2 = (Some e2, s3) →
        run iteritems s =
          (1, World s3 Open Open
                [ EvConnect "cahrens" "localhost" None; EvCursor;
                  EvUse DB_NAME (Some err);
                  EvExecute create_database_stmt (Some e2);
                  EvPrint ("Failed creating database: " +:+ str e2 +:+ nl) ]))) ∧
  (errno err ≠ errorcode.ER_BAD_DB_ERROR →
     run iteritems s =
       (1, World s2 Open Open
             [ EvConnect "cahrens" "localhost" None; EvCursor;
               EvUse DB_NAME (Some err);
               EvPrint (str err +:+ nl) ])).
Proof.
  intros Hconnect Huse.
  pose proof (run_unfold s) as Hrun. rewrite Hconnect in Hrun.
  rewrite select_database_spec in Hrun; simpl in Hrun. rewrite Huse in Hrun.
  split; [done |]. split.
  - intros Herr. apply Z.eqb_eq in Herr. rewrite Herr in Hrun. split.
    + intros s3 Hcreate. rewrite Hcreate in Hrun.
      destruct (srv_use DB_NAME s3) as [[e3|] s4]; simpl in Hrun.
      * rewrite Hrun. by exists [].
      * destruct (responses (iteritems TABLES).*2 s4) as [rs s'].
        rewrite Hrun; simpl. eauto.
    + intros e2 s3 Hcreate. by rewrite Hcreate in Hrun.
  - intros Herr. apply Z.eqb_neq in Herr. by rewrite Herr in Hrun.
Qed.

(** C1, as the script does it. A process that ends with status 0 has closed
    the cursor and then the connection as its last two actions.  A process
    that ends otherwise ends with status 1 and has closed neither: this
    includes the halts after a failed selection or creation of the
    database, where both are left open. *)
Theorem handles_closed_on_completion_only s code (w : world Srv) :
  run iteritems s = (code, w) →
  (code = 0 →
     cnx w = Closed ∧ cursor w = Closed ∧
     ∃ tr, trace w = tr ++ [EvCursorClose; EvCnxClose]) ∧
  (code ≠ 0 →
     code = 1 ∧ cnx w ≠ Closed ∧ cursor w ≠ Closed ∧
     (EvCursorClose ∉ trace w) ∧ (EvCnxClose ∉ trace w) ∧
     ((srv_connect "cahrens" "localhost" s).1 = None →
      cnx w = Open ∧ cursor w = Open)).
Proof.
  rewrite run_unfold.
  destruct (srv_connect "cahrens" "localhost" s) as [[e0|] s0]; simpl.
  { intros [= <- <-]; simpl. split; [done |]. intros _.
    repeat split; try done; absent. }
  rewrite select_database_spec; simpl.
  destruct (srv_use DB_NAME s0) as [[err|] s1]; simpl.
  - destruct (errno err =? errorcode.ER_BAD_DB_ERROR).
    + destruct (srv_execute create_database_stmt s1) as [[e2|] s2]; simpl.
      * intros [= <- <-]; simpl. split; [done |]. intros _.
        repeat split; try done; absent.
      * destruct (srv_use DB_NAME s2) as [[e3|] s3]; simpl.
        -- intros [= <- <-]; simpl. split; [done |]. intros _.
           repeat split; try done; absent.
        -- destruct (responses (iteritems TABLES).*2 s3) as [rs s'].
           intros [= <- <-]; simpl. split; [| done]. intros _.
           repeat split; try done.
           by eexists (_ :: _ :: _ :: _ :: _ :: loop_events _ _).
    + intros [= <- <-]; simpl. split; [done |]. intros _.
      repeat split; try done; absent.
  - destruct (responses (iteritems TABLES).*2 s1) as [rs s'].
    intros [= <- <-]; simpl. split; [| done]. intros _.
    repeat split; try done.
    by eexists (_ :: _ :: _ :: loop_events _ _).
Qed.

End Run.

End ScriptFacts.

(** ** The dictionary of table definitions *)

Import DDL.

Lemma TABLES_items : map_to_list TABLES ≡ₚ TABLES_source.
Proof. apply (bool_decide_unpack _). by vm_compute. Qed.

(** Case analysis on the entries of [TABLES]. *)
Lemma TABLES_cases (P : string → string → Prop) :
  P "runs" TABLES_runs → P "loadstores" TABLES_loadstores →
  P "basicblocks" TABLES_basicblocks → P "instmix" TABLES_instmix →
  P "vectorops" TABLES_vectorops → P "functions" TABLES_functions →
  P "callee" TABLES_callee → P "derived" TABLES_derived →
  ∀ name ddl, TABLES !! name = Some ddl → P name ddl.
Proof.
  intros ? ? ? ? ? ? ? ? name ddl Hin.
  apply elem_of_map_to_list in Hin. rewrite TABLES_items in Hin.
  unfold TABLES_source in Hin.
  repeat (apply elem_of_cons in Hin as [[= -> ->]|Hin]; [done |]).
  by apply elem_of_nil in Hin.
Qed.

Lemma ends_with_spec (suffix s : string) :
  ends_with suffix s = true ↔ ∃ front, s = front +:+ suffix.
Proof.
  split.
  - induction s as [|c s IH]; cbn [ends_with]; intros Hs.
    + apply orb_true_iff in Hs as [Hs|Hs]; [| done].
      apply String.eqb_eq in Hs as <-. by exists EmptyString.
    + apply orb_true_iff in Hs as [Hs|Hs].
      * apply String.eqb_eq in Hs as <-. by exists EmptyString.
      * destruct (IH Hs) as [front ->]. by exists (String c front).
  - intros [front ->]. induction front as [|c front IH].
    + change (EmptyString +:+ suffix) with suffix.
      destruct suffix; cbn [ends_with]; by rewrite String.eqb_refl.
    + rewrite append_cons. cbn [ends_with]. rewrite IH. apply orb_true_r.
Qed.

(** Every statement of [TABLES] is read completely: writing the definition
    read from it back gives the statement's tokens, up to the case of
    keywords. *)
Lemma TABLES_read_back name ddl :
  TABLES !! name = Some ddl →
  ∃ ts t, tokens ddl = Some ts ∧ parse_tokens ts = Some t ∧
          fold_case <$> render t = fold_case <$> ts.
Proof.
  revert name ddl. apply TABLES_cases;
    (eexists _, _; split; [computed |]; split; computed).
Qed.

Lemma TABLES_size : size TABLES = 8%nat.
Proof. computed. Qed.

(** C2, as the script has it. [TABLES] holds eight definitions, under the
    keys runs, loadstores, basicblocks, instmix, vectorops, functions,
    callee and derived. *)
Theorem TABLES_holds_eight_definitions :
  size TABLES = 8%nat ∧
  dom TABLES =
    ({[ "runs"; "loadstores"; "basicblocks"; "instmix"; "vectorops";
        "functions"; "callee"; "derived" ]} : gset string).
Proof. split; [apply TABLES_size | computed]. Qed.

(** C2 as stated fails: the dictionary does not hold nine definitions. *)
Lemma TABLES_does_not_hold_nine_definitions : size TABLES ≠ 9%nat.
Proof. rewrite TABLES_size. discriminate. Qed.

(** C9. Every statement of [TABLES] reads as a table definition, and every
    column it declares is declared [NOT NULL]. *)
Theorem every_column_is_not_null name ddl :
  TABLES !! name = Some ddl →
  ∃ t, parse ddl = Some t ∧ tbl_name t = name ∧ columns t ≠ [] ∧
       Forall (λ c, col_not_null c = true) (columns t).
Proof.
  revert name ddl. apply TABLES_cases;
    (eexists; split; [computed |]; split; [computed |];
     split; [discriminate | decided]).
Qed.

Lemma every_column_is_not_null_witness :
  TABLES !! "callee" = Some TABLES_callee ∧
  ∃ t, parse TABLES_callee = Some t ∧ tbl_name t = "callee" ∧ columns t ≠ [] ∧
       Forall (λ c, col_not_null c = true) (columns t).
Proof.
  split; [reflexivity |].
  apply (every_column_is_not_null "callee" TABLES_callee). reflexivity.
Defined.

(** C10. Every statement of [TABLES] ends with [ENGINE=InnoDB], and the
    definition read from it names the engine InnoDB. *)
Theorem every_table_uses_innodb name ddl :
  TABLES !! name = Some ddl →
  (∃ front, ddl = front +:+ "ENGINE=InnoDB") ∧
  ∃ t, parse ddl = Some t ∧ tbl_engine t = "InnoDB".
Proof.
  revert name ddl. apply TABLES_cases;
    (split; [apply ends_with_spec; computed | eexists; split; computed]).
Qed.

Lemma every_table_uses_innodb_witness :
  TABLES !! "instmix" = Some TABLES_instmix ∧
  (∃ front, TABLES_instmix = front +:+ "ENGINE=InnoDB") ∧
  ∃ t, parse TABLES_instmix = Some t ∧ tbl_engine t = "InnoDB".
Proof.
  split; [reflexivity |].
  apply (every_table_uses_innodb "instmix" TABLES_instmix). reflexivity.
Defined.

(** C8. The [functions] table declares the column [Function] and after it
    the eleven columns [Parent_func1] to [Parent_func11], no other column
    with such a name, each of them a [varchar(128)]. *)
Theorem functions_has_eleven_parent_columns :
  ∃ t, TABLES !! "functions" = Some TABLES_functions ∧
       parse TABLES_functions = Some t ∧
       col_name <$> columns t =
         ["sec"; "usec"; "stackid"; "LD_bytes"; "ST_bytes"; "LD_ops"; "ST_ops";
          "Flops"; "FP_bits"; "Int_ops"; "Int_op_bits"; "Uniq_bytes";
          "Cond_brs"; "Invocations"; "Function";
          "Parent_func1"; "Parent_func2"; "Parent_func3"; "Parent_func4";
          "Parent_func5"; "Parent_func6"; "Parent_func7"; "Parent_func8";
          "Parent_func9"; "Parent_func10"; "Parent_func11"] ∧
       List.filter (λ c, String.prefix "PARENT_FUNC" (upper (col_name c)))
                   (columns t) =
         (λ name, Column name (varchar 128) true) <$>
           ["Parent_func1"; "Parent_func2"; "Parent_func3"; "Parent_func4";
            "Parent_func5"; "Parent_func6"; "Parent_func7"; "Parent_func8";
            "Parent_func9"; "Parent_func10"; "Parent_func11"] ∧
       find_column t "Function" = Some (Column "Function" (varchar 128) true) ∧
       type_family_of (varchar 128) = CharacterString.
Proof. eexists. repeat split; computed. Qed.

(** C5 as stated fails: the ratio columns of [derived] are not of a
    fixed-point type. *)
Lemma derived_ratios_are_not_fixed_point : ¬ derived_with_fixed_point_ratios.
Proof.
  intros (t & Hparse & _ & Hall & _).
  vm_compute in Hparse. injection Hparse as <-.
  vm_compute in Hall. inversion Hall as [|c cs [Hfamily _] _]. discriminate Hfamily.
Qed.

(** C5, as the script has it. Besides [sec] and [usec], which make up its
    key, the [derived] table declares eighteen columns, the first of them
    [bytes_loaded_per_byte_stored], each declared [DOUBLE(20,4) NOT NULL]:
    a floating-point type, shown with 20 digits of which 4 after the point. *)
Theorem derived_has_eighteen_double_columns :
  ∃ t, TABLES !! "derived" = Some TABLES_derived ∧
       parse TABLES_derived = Some t ∧
       primary_keys t = [["sec"; "usec"]] ∧
       length (non_key_columns t) = 18%nat ∧
       col_name <$> non_key_columns t =
         ["bytes_loaded_per_byte_stored"; "ops_per_load_instr";
          "bits_loaded_stored_per_memory_op";
          "flops_per_conditional_indirect_branch";
          "ops_per_conditional_indirect_branch";
          "vector_ops_per_conditional_indirect_branch";
          "vector_ops_per_flop"; "vector_ops_per_op"; "ops_per_instruction";
          "bytes_per_flop"; "bits_per_flop_bit"; "bytes_per_op";
          "bits_per_nonmemory_op_bit"; "unique_bytes_per_flop";
          "unique_bits_per_flop_bit"; "unique_bytes_per_op";
          "unique_bits_per_nonmemory_op_bit"; "bytes_per_unique_byte"] ∧
       Forall (λ c, col_type c = double 20 4 ∧ col_not_null c = true)
              (non_key_columns t) ∧
       type_family_of (double 20 4) = FloatingPoint.
Proof.
  eexists. split; [computed |]. split; [computed |]. split; [computed |].
  split; [computed |]. split; [computed |]. split; [decided | computed].
Qed.

(** One table of [TABLES_cases], for the shape of the primary key. *)
Ltac key_of_table :=
  eexists _, _; split; [computed |]; split; [computed |];
  split; [eexists; split; [computed |]; split; computed |];
  split; [eexists _, _; split; [computed |]; split; computed |];
  split;
  [ first [ intros _; reflexivity
          | let H := fresh in intros H; exfalso; revert H; decided ]
  | first [ let H := fresh in intros H; exfalso; apply H; decided
          | intros _; eexists _, _; split; [reflexivity |];
            split; [computed | decided] ] ].

(** C6. Every statement of [TABLES] declares one primary key, which starts
    with [sec], an unsigned 64-bit integer column, and [usec], an unsigned
    integer column.  The key of [runs] and of [derived] stops there; the key
    of every other table has one more column, which is one of lsid, bbid,
    inst_type, vectid, stackid and Function (column names are looked up
    without regard to case: the key of [callee] writes [function]). *)
Theorem primary_key_starts_with_sec_usec name ddl :
  TABLES !! name = Some ddl →
  ∃ t extra,
    parse ddl = Some t ∧
    primary_keys t = ["sec" :: "usec" :: extra] ∧
    (∃ c, find_column t "sec" = Some c ∧
          type_family_of (col_type c) = Integer 64 ∧
          ty_unsigned (col_type c) = true) ∧
    (∃ c bits, find_column t "usec" = Some c ∧
               type_family_of (col_type c) = Integer bits ∧
               ty_unsigned (col_type c) = true) ∧
    (name ∈ ["runs"; "derived"] → extra = []) ∧
    (name ∉ ["runs"; "derived"] →
       ∃ d c, extra = [d] ∧ find_column t d = Some c ∧
              col_name c ∈ discriminators).
Proof. revert name ddl. apply TABLES_cases; key_of_table. Qed.

Lemma primary_key_starts_with_sec_usec_witness :
  TABLES !! "callee" = Some TABLES_callee ∧
  ∃ t extra,
    parse TABLES_callee = Some t ∧
    primary_keys t = ["sec" :: "usec" :: extra] ∧
    (∃ c, find_column t "sec" = Some c ∧
          type_family_of (col_type c) = Integer 64 ∧
          ty_unsigned (col_type c) = true) ∧
    (∃ c bits, find_column t "usec" = Some c ∧
               type_family_of (col_type c) = Integer bits ∧
               ty_unsigned (col_type c) = true) ∧
    ("callee" ∈ ["runs"; "derived"] → extra = []) ∧
    ("callee" ∉ ["runs"; "derived"] →
       ∃ d c, extra = [d] ∧ find_column t d = Some c ∧
              col_name c ∈ discriminators).
Proof.
  split; [reflexivity |].
  apply (primary_key_starts_with_sec_usec "callee" TABLES_callee). reflexivity.
Defined.

(** ** Runs against the servers with fixed answers *)

Lemma map_to_list_perm (m : gmap string string) : map_to_list m ≡ₚ map_to_list m.
Proof. reflexivity. Qed.

(** C1 as stated fails: after a refused selection of the database, and after
    a refused creation of the database, the process ends with the connection
    and the cursor still open. *)
Lemma fatal_halts_leave_handles_open :
  ¬ released (run map_to_list selection_denied).2 ∧
  ¬ released (run map_to_list creation_denied).2.
Proof. split; intros [Hcnx _]; apply Hcnx; computed. Qed.

Lemma handles_closed_on_completion_only_witness :
  (∃ w, run map_to_list all_fine = (0, w) ∧
        cnx w = Closed ∧ cursor w = Closed ∧
        ∃ tr, trace w = tr ++ [EvCursorClose; EvCnxClose]) ∧
  (∃ w, run map_to_list creation_denied = (1, w) ∧
        cnx w = Open ∧ cursor w = Open ∧
        (EvCursorClose ∉ trace w) ∧ (EvCnxClose ∉ trace w)).
Proof.
  split.
  - eexists. split; [computed |].
    eapply (handles_closed_on_completion_only map_to_list all_fine 0);
      [computed | reflexivity].
  - eexists. split; [computed |].
    edestruct (handles_closed_on_completion_only map_to_list creation_denied 1)
      as [_ Hhalt]; [computed |].
    destruct Hhalt as (_ & _ & _ & Hcursor & Hcnx & Hopen); [discriminate |].
    destruct Hopen as [Hopen1 Hopen2]; [reflexivity |]. done.
Defined.

Lemma database_selection_failure_witness :
  (∃ rest,
     trace (run map_to_list fresh_database).2 =
       [ EvConnect "cahrens" "localhost" None; EvCursor;
         EvUse DB_NAME (Some unknown_database);
         EvExecute create_database_stmt None;
         EvUse DB_NAME None ] ++ rest) ∧
  run map_to_list creation_denied =
    (1, World (Scripted []) Open Open
          [ EvConnect "cahrens" "localhost" None; EvCursor;
            EvUse DB_NAME (Some unknown_database);
            EvExecute create_database_stmt (Some access_denied);
            EvPrint ("Failed creating database: " +:+ str access_denied +:+ nl) ]) ∧
  run map_to_list selection_denied =
    (1, World (Scripted []) Open Open
          [ EvConnect "cahrens" "localhost" None; EvCursor;
            EvUse DB_NAME (Some access_denied);
            EvPrint (str access_denied +:+ nl) ]).
Proof.
  split; [| split].
  - refine (proj1 (proj1 (proj2 (database_selection_failure map_to_list
      fresh_database _ _ unknown_database eq_refl eq_refl)) eq_refl) _ eq_refl).
  - refine (proj2 (proj1 (proj2 (database_selection_failure map_to_list
      creation_denied _ _ unknown_database eq_refl eq_refl)) eq_refl) _ _ eq_refl).
  - refine (proj2 (proj2 (database_selection_failure map_to_list
      selection_denied _ _ access_denied eq_refl eq_refl)) _).
    vm_compute. discriminate.
Defined.

Lemma table_failures_do_not_change_exit_status_witness :
  ∃ rs w,
    run map_to_list fresh_database = (0, w) ∧
    responses (map_to_list TABLES).*2 (Scripted [Some table_exists; Some syntax_error])
      = (rs, server w) ∧
    length rs = 8%nat ∧
    stdout (trace w) =
      lit (zip_with status_line (map_to_list TABLES).*1 (classify <$> rs)) ∧
    (map_to_list TABLES).*1 ≡ₚ
      ["runs"; "loadstores"; "basicblocks"; "instmix"; "vectorops";
       "functions"; "callee"; "derived"].
Proof.
  apply (table_failures_do_not_change_exit_status map_to_list map_to_list_perm
           fresh_database
           (Scripted [Some unknown_database; None; None;
                      Some table_exists; Some syntax_error])
           (Scripted [Some table_exists; Some syntax_error])).
  - reflexivity.
  - right. exists unknown_database, (Scripted [None; None; Some table_exists; Some syntax_error]),
      (Scripted [None; Some table_exists; Some syntax_error]).
    repeat split; reflexivity.
Defined.

(** The output of that run: two tables are reported as not created, the six
    others follow, and the status is 0. *)
Example fresh_database_run :
  (run map_to_list fresh_database).1 = 0 ∧
  stdout (trace (run map_to_list fresh_database).2) = lit
    [ "Creating table callee: already exists."; nl;
      "Creating table instmix: 1064 (42000): You have an error in your SQL syntax"; nl;
      "Creating table vectorops: OK"; nl;
      "Creating table functions: OK"; nl;
      "Creating table runs: OK"; nl;
      "Creating table basicblocks: OK"; nl;
      "Creating table loadstores: OK"; nl;
      "Creating table derived: OK"; nl ].
Proof. split; computed. Qed.

(** * Further properties of the script *)

Lemma executed_app (tr1 tr2 : list event) :
  executed (tr1 ++ tr2) = executed tr1 ++ executed tr2.
Proof.
  induction tr1 as [|e tr1 IH]; simpl; [done |].
  destruct e; simpl; try done. by rewrite IH.
Qed.

Lemma selections_app (tr1 tr2 : list event) :
  selections (tr1 ++ tr2) = selections tr1 ++ selections tr2.
Proof.
  induction tr1 as [|e tr1 IH]; simpl; [done |].
  destruct e; simpl; try done. by rewrite IH.
Qed.


Section ExitPaths.

Context {Srv : Type} `{!MySQLServer Srv}.
Variable iteritems : gmap string string → list (string * string).

Implicit Types (s : Srv) (w : world Srv) (entries : list (string * string)).

Lemma selections_loop_events entries rs : selections (loop_events entries rs) = [].
Proof.
  revert rs. unfold loop_events.
  induction entries as [|entry entries IH]; intros [|r rs]; simpl; auto.
Qed.


(** The five ways in which the process ends. *)
Lemma run_paths s :
  (∃ e s1,
     srv_connect "cahrens" "localhost" s = (Some e, s1) ∧
     run iteritems s =
       (1, World s1 Unbound Unbound [EvConnect "cahrens" "localhost" (Some e)])) ∨
  (∃ s1 err s2,
     srv_connect "cahrens" "localhost" s = (None, s1) ∧
     srv_use DB_NAME s1 = (Some err, s2) ∧
     errno err ≠ errorcode.ER_BAD_DB_ERROR ∧
     run iteritems s =
       (1, World s2 Open Open
             [ EvConnect "cahrens" "localhost" None; EvCursor;
               EvUse DB_NAME (Some err); EvPrint (str err +:+ nl) ])) ∨
  (∃ s1 err s2 e2 s3,
     srv_connect "cahrens" "localhost" s = (None, s1) ∧
     srv_use DB_NAME s1 = (Some err, s2) ∧
     errno err = errorcode.ER_BAD_DB_ERROR ∧
     srv_execute create_database_stmt s2 = (Some e2, s3) ∧
     run iteritems s =
       (1, World s3 Open Open
             [ EvConnect "cahrens" "localhost" None; EvCursor;
               EvUse DB_NAME (Some err);
               EvExecute create_database_stmt (Some e2);
               EvPrint ("Failed creating database: " +:+ str e2 +:+ nl) ])) ∨
  (∃ s1 err s2 s3 e3 s4,
     srv_connect "cahrens" "localhost" s = (None, s1) ∧
     srv_use DB_NAME s1 = (Some err, s2) ∧
     errno err = errorcode.ER_BAD_DB_ERROR ∧
     srv_execute create_database_stmt s2 = (None, s3) ∧
     srv_use DB_NAME s3 = (Some e3, s4) ∧
     run iteritems s =
       (1, World s4 Open Open
             [ EvConnect "cahrens" "localhost" None; EvCursor;
               EvUse DB_NAME (Some err);
               EvExecute create_database_stmt None;
               EvUse DB_NAME (Some e3) ])) ∨
  (∃ s1 s2 pre rs s',
     srv_connect "cahrens" "localhost" s = (None, s1) ∧
     database_ready s1 s2 ∧
     (pre = known_prefix ∧ srv_use DB_NAME s1 = (None, s2) ∨
      ∃ err, pre = created_prefix err ∧ errno err = errorcode.ER_BAD_DB_ERROR) ∧
     responses (iteritems TABLES).*2 s2 = (rs, s') ∧
     length rs = length (iteritems TABLES) ∧
     run iteritems s =
       (0, World s' Closed Closed
             (pre ++ loop_events (iteritems TABLES) rs
                  ++ [EvCursorClose; EvCnxClose]))).
Proof.
  rewrite run_unfold.
  destruct (srv_connect "cahrens" "localhost" s) as [[e0|] s1]; simpl.
  { left. eauto. }
  right. rewrite select_database_spec; simpl.
  destruct (srv_use DB_NAME s1) as [[err|] s2] eqn:Huse; simpl.
  - destruct (Z.eqb_spec (errno err) errorcode.ER_BAD_DB_ERROR) as [Herr|Herr].
    + destruct (srv_execute create_database_stmt s2) as [[e2|] s3] eqn:Hcreate; simpl.
      * right. left. by eexists _, _, _, _, _.
      * destruct (srv_use DB_NAME s3) as [[e3|] s4] eqn:Huse'; simpl.
        -- right. right. left. by eexists _, _, _, _, _, _.
        -- right. right. right.
           pose proof (responses_length (iteritems TABLES).*2 s4) as Hlen.
           rewrite length_fmap in Hlen.
           destruct (responses (iteritems TABLES).*2 s4) as [rs s'] eqn:Hrs.
           exists s1, s4, (created_prefix err), rs, s'.
           split; [done |]. split; [right; by eexists _, _, _ |].
           split; [right; by eexists |]. done.
    + left. by eexists _, _, _.
  - right. right. right.
    pose proof (responses_length (iteritems TABLES).*2 s2) as Hlen.
    rewrite length_fmap in Hlen.
    destruct (responses (iteritems TABLES).*2 s2) as [rs s'] eqn:Hrs.
    exists s1, s2, known_prefix, rs, s'.
    split; [done |]. split; [by left |]. split; [by left |]. done.
Qed.


Lemma run_ready s s1 s2 :
  srv_connect "cahrens" "localhost" s = (None, s1) →
  database_ready s1 s2 →
  ∃ pre rs s',
    stdout pre = EmptyString ∧
    responses (iteritems TABLES).*2 s2 = (rs, s') ∧
    length rs = length (iteritems TABLES) ∧
    run iteritems s =
      (0, World s' Closed Closed
            (pre ++ loop_events (iteritems TABLES) rs
                 ++ [EvCursorClose; EvCnxClose])).
Proof.
  intros Hconnect Hready.
  pose proof (responses_length (iteritems TABLES).*2 s2) as Hlen.
  rewrite length_fmap in Hlen.
  pose proof (run_unfold iteritems s) as Hrun. rewrite Hconnect in Hrun.
  rewrite select_database_spec in Hrun; simpl in Hrun.
  destruct (responses (iteritems TABLES).*2 s2) as [rs s'] eqn:Hrs.
  destruct Hready as [Huse | (err & sa & sb & Huse & Herr & Hcreate & Huse')].
  - rewrite Huse in Hrun; simpl in Hrun. rewrite Hrs in Hrun.
    by exists known_prefix, rs, s'.
  - rewrite Huse in Hrun. apply Z.eqb_eq in Herr.
    rewrite Herr, Hcreate, Huse' in Hrun. simpl in Hrun. rewrite Hrs in Hrun.
    by exists (created_prefix err), rs, s'.
Qed.

Lemma elem_of_zip_total {A B} (l : list A) (k : list B) (x : A) :
  length k = length l → x ∈ l → ∃ y, (x, y) ∈ zip l k.
Proof.
  revert k. induction l as [|a l IH]; intros [|b k] Hlen Hin; simpl in *;
    try done.
  - by apply elem_of_nil in Hin.
  - apply elem_of_cons in Hin as [->|Hin].
    + exists b. apply elem_of_cons. by left.
    + destruct (IH k) as [y Hy]; [lia | done |].
      exists y. apply elem_of_cons. by right.
Qed.

Hypothesis iteritems_perm : ∀ m, iteritems m ≡ₚ map_to_list m.

Lemma create_database_stmt_is_no_table :
  create_database_stmt ∉ (iteritems TABLES).*2.
Proof.
  rewrite (iteritems_perm TABLES). decided.
Qed.

(** X1. When the server refuses the connection, the exception is caught by
    nobody: the process ends with status 1 having made no cursor, selected
    no database, executed no statement and printed nothing. *)
Theorem refused_connection_ends_the_run s (e : Error) s1 :
  srv_connect "cahrens" "localhost" s = (Some e, s1) →
  run iteritems s =
    (1, World s1 Unbound Unbound [EvConnect "cahrens" "localhost" (Some e)]).
Proof.
  intros Hconnect. rewrite run_unfold. by rewrite Hconnect.
Qed.

(** X2. The second selection, made after the database was created, is not
    guarded: when it fails, whatever the error, the process ends with
    status 1 without a second creation, without executing a table statement
    and without printing the error on standard output. *)
Theorem failed_reselection_is_not_caught s s1 s2 s3 s4 (err e3 : Error) :
  srv_connect "cahrens" "localhost" s = (None, s1) →
  srv_use DB_NAME s1 = (Some err, s2) →
  errno err = errorcode.ER_BAD_DB_ERROR →
  srv_execute create_database_stmt s2 = (None, s3) →
  srv_use DB_NAME s3 = (Some e3, s4) →
  run iteritems s =
    (1, World s4 Open Open
          [ EvConnect "cahrens" "localhost" None; EvCursor;
            EvUse DB_NAME (Some err);
            EvExecute create_database_stmt None;
            EvUse DB_NAME (Some e3) ]) ∧
  stdout (trace (run iteritems s).2) = EmptyString.
Proof.
  intros Hconnect Huse Herr Hcreate Huse'.
  assert (run iteritems s =
    (1, World s4 Open Open
          [ EvConnect "cahrens" "localhost" None; EvCursor;
            EvUse DB_NAME (Some err);
            EvExecute create_database_stmt None;
            EvUse DB_NAME (Some e3) ])) as Hrun.
  { rewrite run_unfold, Hconnect, select_database_spec; simpl.
    rewrite Huse. apply Z.eqb_eq in Herr. by rewrite Herr, Hcreate, Huse'. }
  by rewrite Hrun.
Qed.

(** X3. A process that ends with status 0 connected, had the database
    selected (after creating it, if it was unknown), and passed the
    statement of every entry of [TABLES] to the server. *)
Theorem zero_status_means_every_table_was_submitted s (w : world Srv) :
  run iteritems s = (0, w) →
  (∃ s1 s2, srv_connect "cahrens" "localhost" s = (None, s1) ∧
            database_ready s1 s2) ∧
  ∀ name ddl, TABLES !! name = Some ddl → ∃ r, (ddl, r) ∈ executed (trace w).
Proof.
  intros Hrun.
  destruct (run_paths s) as
    [(e & s1 & _ & H) | [(s1 & err & s2 & _ & _ & _ & H) |
    [(s1 & err & s2 & e2 & s3 & _ & _ & _ & _ & H) |
    [(s1 & err & s2 & s3 & e3 & s4 & _ & _ & _ & _ & _ & H) |
     (s1 & s2 & pre & rs & s' & Hconnect & Hready & _ & _ & Hlen & H)]]]];
    rewrite H in Hrun; try discriminate Hrun.
  injection Hrun as <-. split; [eauto |].
  intros name ddl Hin; simpl.
  rewrite !executed_app, loop_events_executed by done.
  apply elem_of_map_to_list in Hin. rewrite <- (iteritems_perm TABLES) in Hin.
  assert (ddl ∈ (iteritems TABLES).*2) as Hddl.
  { by apply (list_elem_of_fmap_2 snd _ (name, ddl)). }
  destruct (elem_of_zip_total (iteritems TABLES).*2 rs ddl) as [r Hr];
    [by rewrite length_fmap | done |].
  exists r. apply elem_of_app. right. apply elem_of_app. by left.
Qed.

Lemma table_statements_are_distinct : NoDup (iteritems TABLES).*2.
Proof. rewrite (iteritems_perm TABLES). decided. Qed.

(** X4. Whatever the server answers, no statement is executed twice.  A run
    with status 0 executes the statements of [TABLES], each once, in the
    order of iteration, after the creation of the database if there was
    one; a run that halts executes no table statement: nothing at all, or
    the creation of the database alone. *)
Theorem statements_issued s :
  let stmts := (executed (trace (run iteritems s).2)).*1 in
  NoDup stmts ∧
  (iteritems TABLES).*2 ≡ₚ TABLES_source.*2 ∧
  ((run iteritems s).1 = 0 →
     stmts = (iteritems TABLES).*2 ∨
     stmts = create_database_stmt :: (iteritems TABLES).*2) ∧
  ((run iteritems s).1 ≠ 0 →
     stmts = [] ∨ stmts = [create_database_stmt]).
Proof.
  pose proof create_database_stmt_is_no_table as Hno.
  pose proof table_statements_are_distinct as Hdistinct.
  assert ((iteritems TABLES).*2 ≡ₚ TABLES_source.*2) as Hsource.
  { by rewrite (iteritems_perm TABLES), TABLES_items. }
  destruct (run_paths s) as
    [(e & s1 & _ & H) | [(s1 & err & s2 & _ & _ & _ & H) |
    [(s1 & err & s2 & e2 & s3 & _ & _ & _ & _ & H) |
    [(s1 & err & s2 & s3 & e3 & s4 & _ & _ & _ & _ & _ & H) |
     (s1 & s2 & pre & rs & s' & _ & _ & Hpre & _ & Hlen & H)]]]];
    rewrite H; simpl;
    try (split; [first [apply NoDup_nil_2 | apply NoDup_singleton] |];
         split; [done |]; split; [done | auto]).
  rewrite !executed_app, loop_events_executed by done.
  rewrite !fmap_app, fst_zip by (rewrite length_fmap; lia). simpl.
  rewrite app_nil_r.
  destruct Hpre as [[-> _] | (err & -> & _)]; simpl.
  - split; [done |]. split; [done |]. split; [auto | done].
  - split; [by apply NoDup_cons |]. split; [done |]. split; [auto | done].
Qed.

(** X5. The statement creating the database is executed exactly when the
    first selection fails with [ER_BAD_DB_ERROR] after a successful
    connection: a database the server knows is never created again. *)
Theorem database_is_created_only_when_unknown s :
  create_database_stmt ∈ (executed (trace (run iteritems s).2)).*1 ↔
  ∃ s1 err s2,
    srv_connect "cahrens" "localhost" s = (None, s1) ∧
    srv_use DB_NAME s1 = (Some err, s2) ∧
    errno err = errorcode.ER_BAD_DB_ERROR.
Proof.
  pose proof create_database_stmt_is_no_table as Hno.
  destruct (run_paths s) as
    [(e & s1 & Hc & H) | [(s1 & err & s2 & Hc & Hu & Herr & H) |
    [(s1 & err & s2 & e2 & s3 & Hc & Hu & Herr & _ & H) |
    [(s1 & err & s2 & s3 & e3 & s4 & Hc & Hu & Herr & _ & _ & H) |
     (s1 & s2 & pre & rs & s' & Hc & Hready & Hpre & _ & Hlen & H)]]]];
    rewrite H; simpl.
  - split; [by intros ?%elem_of_nil |].
    intros (? & ? & ? & Hc' & _). by rewrite Hc in Hc'.
  - split; [by intros ?%elem_of_nil |].
    intros (? & ? & ? & Hc' & Hu' & Herr').
    rewrite Hc in Hc'. injection Hc' as <-. rewrite Hu in Hu'.
    by injection Hu' as <- <-.
  - split; [eauto 10 | intros _; by apply list_elem_of_singleton].
  - split; [eauto 10 | intros _; by apply list_elem_of_singleton].
  - rewrite !executed_app, loop_events_executed by done.
    rewrite !fmap_app, fst_zip by (rewrite length_fmap; lia). simpl.
    rewrite app_nil_r.
    destruct Hpre as [[-> Hu] | (err & -> & Herr)]; simpl.
    + split; [done |].
      intros (? & ? & ? & Hc' & Hu' & _).
      rewrite Hc in Hc'. injection Hc' as <-. by rewrite Hu in Hu'.
    + split; [| intros _; apply elem_of_cons; by left].
      intros _. destruct Hready as [Hu | (err' & sa & sb & Hu & Herr' & _)].
      * exfalso. (* pre says the first selection failed *)
        rewrite run_unfold, Hc, select_database_spec in H. simpl in H.
        rewrite Hu in H. simpl in H.
        destruct (responses (iteritems TABLES).*2 s2) as [rs0 s0].
        injection H as _ H. discriminate H.
      * eauto 10.
Qed.

(** X8. The database is selected at most twice, and a second time only
    after the first selection failed with [ER_BAD_DB_ERROR]: nothing is
    tried again otherwise. *)
Theorem database_is_selected_at_most_twice s :
  match selections (trace (run iteritems s).2) with
  | [] | [_] => True
  | [Some err; _] => errno err = errorcode.ER_BAD_DB_ERROR
  | _ => False
  end.
Proof.
  destruct (run_paths s) as
    [(e & s1 & _ & H) | [(s1 & err & s2 & _ & _ & _ & H) |
    [(s1 & err & s2 & e2 & s3 & _ & _ & _ & _ & H) |
    [(s1 & err & s2 & s3 & e3 & s4 & _ & _ & Herr & _ & _ & H) |
     (s1 & s2 & pre & rs & s' & _ & _ & Hpre & _ & _ & H)]]]];
    rewrite H; simpl; try done.
  rewrite !selections_app, selections_loop_events. simpl. rewrite app_nil_r.
  by destruct Hpre as [[-> _] | (err & -> & Herr)].
Qed.


End ExitPaths.

Section Orders.

Context {Srv : Type} `{!MySQLServer Srv}.

Implicit Types (s : Srv) (entries : list (string * string)).

Lemma responses_by_statement (good : Srv → Prop) (f : string → option Error)
    (stmts : list string) s :
  (∀ q s, good s → (srv_execute q s).1 = f q ∧ good (srv_execute q s).2) →
  good s →
  (responses stmts s).1 = f <$> stmts.
Proof.
  intros Hf. revert s. induction stmts as [|q qs IH]; intros s Hs; simpl; [done |].
  destruct (Hf q s Hs) as [Hq Hs'].
  destruct (srv_execute q s) as [r s1]; simpl in *.
  specialize (IH s1 Hs'). destruct (responses qs s1) as [rs s2]; simpl in *.
  by rewrite Hq, IH.
Qed.

Lemma status_lines_fmap (f : string → option Error) entries :
  zip_with status_line entries.*1 (classify <$> (f <$> entries.*2)) =
    (λ entry, status_line entry.1 (classify (f entry.2))) <$> entries.
Proof.
  induction entries as [|[name ddl] entries IH]; csimpl; [done |]. by rewrite IH.
Qed.

(** X6. The order in which the dictionary yields its items has no effect
    on the exit status, and none at all on a run that halts. *)
Theorem exit_status_does_not_depend_on_order
    (iteritems1 iteritems2 : gmap string string → list (string * string)) s :
  (run iteritems1 s).1 = (run iteritems2 s).1 ∧
  ((run iteritems1 s).1 ≠ 0 → run iteritems1 s = run iteritems2 s).
Proof.
  rewrite !run_unfold.
  destruct (srv_connect "cahrens" "localhost" s) as [[e|] s0]; [done |].
  destruct (select_database _) as [[[]|e|code] w1]; [| done | done].
  destruct (responses (iteritems1 TABLES).*2 (server w1)) as [rs1 s1'].
  destruct (responses (iteritems2 TABLES).*2 (server w1)) as [rs2 s2'].
  done.
Qed.

(** X7. When the server's answer to a statement depends on the statement
    alone, two orders of iteration print the same status lines, in the
    order of the iteration. *)
Theorem status_lines_are_permuted_with_the_order
    (iteritems1 iteritems2 : gmap string string → list (string * string))
    (good : Srv → Prop) (f : string → option Error) s s1 s2 :
  (∀ m, iteritems1 m ≡ₚ map_to_list m) →
  (∀ m, iteritems2 m ≡ₚ map_to_list m) →
  (∀ q s, good s → (srv_execute q s).1 = f q ∧ good (srv_execute q s).2) →
  srv_connect "cahrens" "localhost" s = (None, s1) →
  database_ready s1 s2 →
  good s2 →
  let line := λ entry : string * string,
                status_line entry.1 (classify (f entry.2)) in
  stdout (trace (run iteritems1 s).2) = lit (line <$> iteritems1 TABLES) ∧
  stdout (trace (run iteritems2 s).2) = lit (line <$> iteritems2 TABLES) ∧
  line <$> iteritems1 TABLES ≡ₚ line <$> iteritems2 TABLES.
Proof.
  intros Hperm1 Hperm2 Hf Hconnect Hready Hgood line.
  assert (∀ iteritems,
    stdout (trace (run iteritems s).2) = lit (line <$> iteritems TABLES)) as Hout.
  { intros iteritems.
    destruct (run_ready iteritems s s1 s2 Hconnect Hready)
      as (pre & rs & s' & Hpre & Hrs & Hlen & ->); simpl.
    rewrite !stdout_app, Hpre, loop_events_stdout by done. simpl.
    rewrite append_empty_r.
    pose proof (responses_by_statement good f (iteritems TABLES).*2 s2 Hf Hgood)
      as Hby.
    rewrite Hrs in Hby; simpl in Hby. by rewrite Hby, status_lines_fmap. }
  split; [apply Hout |]. split; [apply Hout |].
  by rewrite (Hperm1 TABLES), (Hperm2 TABLES).
Qed.

Lemma uniform_status_lines (o : table_outcome) (names : list string)
    (rs : list (option Error)) :
  length rs = length names →
  Forall (λ r, classify r = o) rs →
  zip_with status_line names (classify <$> rs) = (λ name, status_line name o) <$> names.
Proof.
  revert rs. induction names as [|name names IH]; intros [|r rs] Hlen Hall;
    csimpl in *; try done.
  apply Forall_cons in Hall as [-> Hall]. rewrite IH; [done | lia | done].
Qed.

Lemma responses_classified (good : Srv → Prop) (o : table_outcome)
    (stmts : list string) s :
  (∀ q s, good s → classify (srv_execute q s).1 = o ∧ good (srv_execute q s).2) →
  good s →
  Forall (λ r, classify r = o) (responses stmts s).1.
Proof.
  intros Hf. revert s. induction stmts as [|q qs IH]; intros s Hs; simpl;
    [by apply Forall_nil |].
  destruct (Hf q s Hs) as [Hq Hs'].
  destruct (srv_execute q s) as [r s1]; simpl in *.
  specialize (IH s1 Hs'). destruct (responses qs s1) as [rs s2]; simpl in *.
  by apply Forall_cons.
Qed.

(** X13. When the server's answers to the table statements all count as
    the same outcome, every table gets the line of that outcome and the
    status is 0: on a server where every table exists, the script prints
    [already exists.] eight times and succeeds. *)
Theorem uniform_answers_give_uniform_lines
    (iteritems : gmap string string → list (string * string))
    (good : Srv → Prop) (o : table_outcome) s s1 s2 :
  (∀ q s, good s → classify (srv_execute q s).1 = o ∧ good (srv_execute q s).2) →
  srv_connect "cahrens" "localhost" s = (None, s1) →
  database_ready s1 s2 →
  good s2 →
  (run iteritems s).1 = 0 ∧
  stdout (trace (run iteritems s).2) =
    lit ((λ name, "Creating table " +:+ name +:+ ": " +:+ report o +:+ nl)
           <$> (iteritems TABLES).*1).
Proof.
  intros Hf Hconnect Hready Hgood.
  destruct (run_ready iteritems s s1 s2 Hconnect Hready)
    as (pre & rs & s' & Hpre & Hrs & Hlen & ->); simpl.
  split; [done |].
  rewrite !stdout_app, Hpre, loop_events_stdout by done. simpl.
  rewrite append_empty_r.
  pose proof (responses_classified good o (iteritems TABLES).*2 s2 Hf Hgood) as Hall.
  rewrite Hrs in Hall; simpl in Hall.
  by rewrite (uniform_status_lines o) by (by rewrite ?length_fmap).
Qed.

End Orders.


(** X10. In every statement of [TABLES] each column of the primary key is
    a declared column (names compared without regard to case), and it is
    [NOT NULL]. *)
Theorem key_columns_are_declared name ddl :
  TABLES !! name = Some ddl →
  ∃ t, parse ddl = Some t ∧ key_columns t ≠ [] ∧
       Forall (λ k, col_not_null <$> find_column t k = Some true) (key_columns t).
Proof.
  revert name ddl. apply TABLES_cases;
    (eexists; split; [computed |]; split; [discriminate | decided]).
Qed.

(** X11. No statement of [TABLES] declares two columns whose names are
    equal up to case. *)
Theorem column_names_are_distinct name ddl :
  TABLES !! name = Some ddl →
  ∃ t, parse ddl = Some t ∧ NoDup (upper ∘ col_name <$> columns t).
Proof.
  revert name ddl. apply TABLES_cases; (eexists; split; [computed | decided]).
Qed.

(** X12. Every statement of [TABLES] declares [sec] and [usec] as its first
    two columns, with the same types in all tables: [bigint(20) UNSIGNED]
    and [bigint(6) UNSIGNED], both [NOT NULL]. *)
Theorem every_table_starts_with_sec_and_usec name ddl :
  TABLES !! name = Some ddl →
  ∃ t rest,
    parse ddl = Some t ∧
    columns t =
      Column "sec" (SqlType "BIGINT" [20%N] true) true
      :: Column "usec" (SqlType "BIGINT" [6%N] true) true :: rest.
Proof.
  revert name ddl. apply TABLES_cases; (eexists _, _; split; computed).
Qed.

(** ** Runs that show the properties above *)

Lemma reversed_items_perm (m : gmap string string) :
  reversed_items m ≡ₚ map_to_list m.
Proof. apply reverse_Permutation. Qed.

Lemma refused_connection_ends_the_run_witness :
  run map_to_list connection_refused =
    (1, World (Scripted []) Unbound Unbound
          [EvConnect "cahrens" "localhost" (Some cannot_connect)]).
Proof.
  apply (refused_connection_ends_the_run map_to_list connection_refused).
  reflexivity.
Defined.

Lemma failed_reselection_is_not_caught_witness :
  run map_to_list refused_after_creation =
    (1, World (Scripted []) Open Open
          [ EvConnect "cahrens" "localhost" None; EvCursor;
            EvUse DB_NAME (Some unknown_database);
            EvExecute create_database_stmt None;
            EvUse DB_NAME (Some access_denied) ]) ∧
  stdout (trace (run map_to_list refused_after_creation).2) = EmptyString.
Proof.
  apply (failed_reselection_is_not_caught map_to_list refused_after_creation
           (Scripted [Some unknown_database; None; Some access_denied])
           (Scripted [None; Some access_denied])
           (Scripted [Some access_denied])
           (Scripted []) unknown_database access_denied); reflexivity.
Defined.

Lemma zero_status_means_every_table_was_submitted_witness :
  run map_to_list fresh_database = (0, (run map_to_list fresh_database).2) ∧
  (∃ s1 s2 : scripted,
     srv_connect "cahrens" "localhost" fresh_database = (None, s1) ∧
     database_ready s1 s2) ∧
  ∀ name ddl, TABLES !! name = Some ddl →
    ∃ r, (ddl, r) ∈ executed (trace (run map_to_list fresh_database).2).
Proof.
  split; [computed |].
  apply (zero_status_means_every_table_was_submitted map_to_list
           map_to_list_perm fresh_database).
  computed.
Defined.

Lemma statements_issued_witness :
  let stmts := (executed (trace (run map_to_list fresh_database).2)).*1 in
  NoDup stmts ∧
  (map_to_list TABLES).*2 ≡ₚ TABLES_source.*2 ∧
  ((run map_to_list fresh_database).1 = 0 →
     stmts = (map_to_list TABLES).*2 ∨
     stmts = create_database_stmt :: (map_to_list TABLES).*2) ∧
  ((run map_to_list fresh_database).1 ≠ 0 →
     stmts = [] ∨ stmts = [create_database_stmt]).
Proof.
  apply (statements_issued map_to_list map_to_list_perm fresh_database).
Defined.

Lemma database_is_created_only_when_unknown_witness :
  create_database_stmt ∈
    (executed (trace (run map_to_list fresh_database).2)).*1.
Proof.
  apply (database_is_created_only_when_unknown map_to_list map_to_list_perm
           fresh_database).
  eexists _, unknown_database, _. repeat split; reflexivity.
Defined.

Lemma status_lines_are_permuted_with_the_order_witness :
  let line := λ entry : string * string,
                status_line entry.1 (classify (answer_of runs_exists entry.2)) in
  stdout (trace (run map_to_list runs_exists).2) = lit (line <$> map_to_list TABLES) ∧
  stdout (trace (run reversed_items runs_exists).2) =
    lit (line <$> reversed_items TABLES) ∧
  line <$> map_to_list TABLES ≡ₚ line <$> reversed_items TABLES.
Proof.
  apply (status_lines_are_permuted_with_the_order map_to_list reversed_items
           (λ s, s = runs_exists) (answer_of runs_exists)
           runs_exists runs_exists runs_exists
           map_to_list_perm reversed_items_perm).
  - intros q s ->. split; reflexivity.
  - reflexivity.
  - left. reflexivity.
  - reflexivity.
Defined.

Lemma uniform_answers_give_uniform_lines_witness :
  (run map_to_list everything_exists).1 = 0 ∧
  stdout (trace (run map_to_list everything_exists).2) =
    lit ((λ name, "Creating table " +:+ name +:+ ": already exists." +:+ nl)
           <$> (map_to_list TABLES).*1).
Proof.
  apply (uniform_answers_give_uniform_lines map_to_list
           (λ s, s = everything_exists) AlreadyPresent
           everything_exists everything_exists everything_exists).
  - intros q s ->. split; reflexivity.
  - reflexivity.
  - left. reflexivity.
  - reflexivity.
Defined.

Lemma key_columns_are_declared_witness :
  TABLES !! "callee" = Some TABLES_callee ∧
  ∃ t, parse TABLES_callee = Some t ∧ key_columns t ≠ [] ∧
       Forall (λ k, col_not_null <$> find_column t k = Some true) (key_columns t).
Proof.
  split; [reflexivity |].
  apply (key_columns_are_declared "callee" TABLES_callee). reflexivity.
Defined.

Lemma column_names_are_distinct_witness :
  TABLES !! "functions" = Some TABLES_functions ∧
  ∃ t, parse TABLES_functions = Some t ∧ NoDup (upper ∘ col_name <$> columns t).
Proof.
  split; [reflexivity |].
  apply (column_names_are_distinct "functions" TABLES_functions). reflexivity.
Defined.

Lemma every_table_starts_with_sec_and_usec_witness :
  TABLES !! "derived" = Some TABLES_derived ∧
  ∃ t rest,
    parse TABLES_derived = Some t ∧
    columns t =
      Column "sec" (SqlType "BIGINT" [20%N] true) true
      :: Column "usec" (SqlType "BIGINT" [6%N] true) true :: rest.
Proof.
  split; [reflexivity |].
  apply (every_table_starts_with_sec_and_usec "derived" TABLES_derived). reflexivity.
Defined.

(** The two orders give the same lines in opposite order. *)
Example runs_exists_output :
  stdout (trace (run map_to_list runs_exists).2) = lit
    [ "Creating table callee: OK"; nl;
      "Creating table instmix: OK"; nl;
      "Creating table vectorops: OK"; nl;
      "Creating table functions: OK"; nl;
      "Creating table runs: already exists."; nl;
      "Creating table basicblocks: OK"; nl;
      "Creating table loadstores: OK"; nl;
      "Creating table derived: OK"; nl ] ∧
  stdout (trace (run reversed_items runs_exists).2) = lit
    [ "Creating table derived: OK"; nl;
      "Creating table loadstores: OK"; nl;
      "Creating table basicblocks: OK"; nl;
      "Creating table runs: already exists."; nl;
      "Creating table functions: OK"; nl;
      "Creating table vectorops: OK"; nl;
      "Creating table instmix: OK"; nl;
      "Creating table callee: OK"; nl ].
Proof. split; computed. Qed.
